(** * Velbus bus controller (velbus/controller.py)

    A shallow embedding of [Controller]: its fields become a record, its
    methods become computations in a small state-and-exception monad, and
    every call that leaves the controller (the transport, the parser, the
    loggers, a module driver, a subscriber, the scan callback, [time.sleep])
    is recorded, in program order, in an output trace.

    Python exceptions do not roll back earlier assignments, so a computation
    returns the world it reached together with either a value or the
    exception raised.

    The objects the controller only holds references to are opaque here:
    a subscriber and a scan callback are identifiers, and calling one is an
    event of the trace (what the callee does afterwards is outside this
    file).  A callable is truthy, [None] is falsy.  Assertions are checked
    (the interpreter does not run with [-O]). *)

From Stdlib Require Import ZArith List String Bool Lia.
Import ListNotations.
Local Open Scope Z_scope.

(** ** Python values and exceptions *)

Inductive PyValue : Type :=
| PyNone
| PyBool (b : bool)
| PyInt (z : Z)
| PyStr (s : string)
| PyBytes (bs : list Byte.byte)
| PyByteArray (bs : list Byte.byte)
| PyObject (id : nat).

Inductive PyExn : Type :=
| AssertionError
| ValueError
| KeyError (key : string)
| AttributeError
| TypeError
| Exception (msg : string).

Inductive Outcome (A : Type) : Type :=
| Ret (a : A)
| Raise (e : PyExn).
Arguments Ret {A} a.
Arguments Raise {A} e.

(** [isinstance(data, bytes)] *)
Definition isinstance_bytes (data : PyValue) : bool :=
  match data with
  | PyBytes _ => true
  | _ => false
  end.

(** The binary [+] of Python on the values used here: defined on two
    strings and on two integers, [TypeError] on a string and an integer. *)
Definition py_add (a b : PyValue) : Outcome PyValue :=
  match a, b with
  | PyStr s, PyStr t => Ret (PyStr (s ++ t))
  | PyInt x, PyInt y => Ret (PyInt (x + y))
  | _, _ => Raise TypeError
  end.

(** ** Messages, modules, events *)

Definition Address := Z.
Definition Subscriber := nat.
Definition Callback := nat.

(** The message classes of the [velbus] package that the controller tells
    apart; [module_name] of a module type message holds what its
    [module_name()] method returns. *)
Inductive Message : Type :=
| BusActiveMessage
| ReceiveReadyMessage
| BusOffMessage
| ReceiveBufferFullMessage
| ModuleTypeMessage (address : Address) (module_type : Z) (module_name : string)
| ModuleTypeRequestMessage (address : Address)
| OtherMessage (command : Z) (address : Address) (data : list Z).

(** What a constructor of [velbus.ModuleRegistry] is called with:
    [(m_type, name, address, self)]. *)
Record VelbusModule : Type := mkModule {
  m_type : Z;
  m_name : string;
  m_address : Address
}.

(** The objects a loop variable of the controller ranges over: a module, or
    a [(key, value)] tuple of the module dictionary. *)
Inductive PyObj : Type :=
| ObjModule (m : VelbusModule)
| ObjTuple (a : Address) (m : VelbusModule).

(** The callables the controller hands out as completion callbacks. *)
Inductive Continuation : Type :=
| scan_finished_k
| module_loaded_k
| user_k (c : Callback).

Inductive Level : Type := INFO | WARNING | ERROR.

Inductive LogRecord : Type :=
| log_new_message (m : Message)
| log_text (s : string)
| log_unknown_module (code : Z)
| log_not_supported (name : string)
| log_module_loaded (text : PyValue).

Inductive Event : Type :=
| ParserFeed (data : PyValue)
| ConnectionSend (message : Message) (callback : option Continuation)
| Log (lvl : Level) (r : LogRecord)
| Sleep (seconds : Z)
| GetName (m : VelbusModule) (callback : Continuation)
| CallScanCallback (c : Callback)
| CallSubscriber (s : Subscriber) (message : Message).

(** ** The controller and its monad *)

Record Controller : Type := mkController {
  subscribers : list Subscriber;
  scan_callback : option Callback;
  _modules : list (Address * VelbusModule);
  _modules_loaded : Z
}.

(** [Controller.__init__] *)
Definition init : Controller :=
  {| subscribers := [];
     scan_callback := None;
     _modules := [];
     _modules_loaded := 0 |}.

Record World : Type := mkWorld {
  self : Controller;
  trace : list Event
}.

Definition M (A : Type) : Type := World -> Outcome A * World.

Definition ret {A} (a : A) : M A := fun w => (Ret a, w).

Definition bind {A B} (c : M A) (k : A -> M B) : M B :=
  fun w =>
    match c w with
    | (Ret a, w') => k a w'
    | (Raise e, w') => (Raise e, w')
    end.

Definition raise {A} (e : PyExn) : M A := fun w => (Raise e, w).

Definition lift {A} (o : Outcome A) : M A := fun w => (o, w).

Definition get : M Controller := fun w => (Ret (self w), w).

Definition put (c : Controller) : M unit :=
  fun w => (Ret tt, {| self := c; trace := trace w |}).

Definition emit (e : Event) : M unit :=
  fun w => (Ret tt, {| self := self w; trace := trace w ++ [e] |}).

Notation "x <- c ;; k" := (bind c (fun x => k))
  (at level 61, c at next level, right associativity).
Notation "c ;; k" := (bind c (fun _ => k))
  (at level 61, right associativity).

(** [for x in xs: body(x)] *)
Fixpoint for_each {A} (xs : list A) (body : A -> M unit) : M unit :=
  match xs with
  | [] => ret tt
  | x :: rest => body x ;; for_each rest body
  end.

(** [if cond: body] *)
Definition when (cond : bool) (body : M unit) : M unit :=
  if cond then body else ret tt.

(** Running a method on a controller, from an empty trace. *)
Definition run {A} (c : M A) (st : Controller) : Outcome A * World :=
  c {| self := st; trace := [] |}.

(** Truth value of [self.__scan_callback]. *)
Definition truthy (c : option Callback) : bool :=
  match c with
  | Some _ => true
  | None => false
  end.

(** ** Python containers *)

(** [range(lo, lo + n)] *)
Fixpoint range (lo : Z) (n : nat) : list Z :=
  match n with
  | O => []
  | S n' => lo :: range (lo + 1) n'
  end.

(** [d[key] = value] on a dictionary kept in insertion order: a present key
    keeps its position and gets the new value, an absent one is appended. *)
Fixpoint dict_set {V} (d : list (Z * V)) (key : Z) (value : V) : list (Z * V) :=
  match d with
  | [] => [(key, value)]
  | (k, v) :: rest =>
      if k =? key then (k, value) :: rest
      else (k, v) :: dict_set rest key value
  end.

Fixpoint dict_get {V} (d : list (Z * V)) (key : Z) : option V :=
  match d with
  | [] => None
  | (k, v) :: rest => if k =? key then Some v else dict_get rest key
  end.

(** [d.items()] and [d.values()] of the module dictionary. *)
Definition dict_items (d : list (Address * VelbusModule)) : list PyObj :=
  map (fun kv => ObjTuple (fst kv) (snd kv)) d.

Definition dict_values (d : list (Address * VelbusModule)) : list PyObj :=
  map (fun kv => ObjModule (snd kv)) d.

(** [x in names] for a list of strings. *)
Fixpoint str_in (x : string) (names : list string) : bool :=
  match names with
  | [] => false
  | n :: rest => if String.eqb x n then true else str_in x rest
  end.

(** [l.remove(x)]: drops the first occurrence, [None] stands for the
    [ValueError] of an absent element. *)
Fixpoint list_remove (x : Subscriber) (l : list Subscriber) : option (list Subscriber) :=
  match l with
  | [] => None
  | y :: rest =>
      if Nat.eqb y x then Some rest
      else match list_remove x rest with
           | Some rest' => Some (y :: rest')
           | None => None
           end
  end.

(** [MODULE_CATEGORIES] *)
Definition MODULE_CATEGORIES : list (string * list string) :=
  [ ("switch"%string, ["VMB4RYLD"%string; "VMB4RYNO"%string]);
    ("binary_sensor"%string, ["VMB6IN"%string; "VMB7IN"%string]) ].

(** [MODULE_CATEGORIES[category]] *)
Fixpoint categories_get (table : list (string * list string)) (category : string)
  : Outcome (list string) :=
  match table with
  | [] => Raise (KeyError category)
  | (c, names) :: rest =>
      if String.eqb c category then Ret names else categories_get rest category
  end.

(** ** The methods of [Controller] *)

(** [self.logger.info], [.warning], [.error] and [logging.info] *)
Definition log (lvl : Level) (r : LogRecord) : M unit := emit (Log lvl r).

(** [Controller.feed_parser] *)
Definition feed_parser (data : PyValue) : M unit :=
  if isinstance_bytes data then emit (ParserFeed data)
  else raise AssertionError.

(** [Controller.subscribe] *)
Definition subscribe (subscriber : Subscriber) : M unit :=
  st <- get ;;
  put {| subscribers := subscribers st ++ [subscriber];
         scan_callback := scan_callback st;
         _modules := _modules st;
         _modules_loaded := _modules_loaded st |}.

(** [Controller.unsubscribe] *)
Definition unsubscribe (subscriber : Subscriber) : M unit :=
  st <- get ;;
  match list_remove subscriber (subscribers st) with
  | None => raise ValueError
  | Some l =>
      put {| subscribers := l;
             scan_callback := scan_callback st;
             _modules := _modules st;
             _modules_loaded := _modules_loaded st |}
  end.

(** [Controller.send] *)
Definition send (message : Message) (callback : option Continuation) : M unit :=
  emit (ConnectionSend message callback).

(** [module.get_module_name()]: a method of a module, not of a tuple. *)
Definition get_module_name (module : PyObj) : M string :=
  match module with
  | ObjModule m => ret (m_name m)
  | ObjTuple _ _ => raise AttributeError
  end.

(** [module.get_name(callback)]: the driver of the module asks the bus for
    the name and calls [callback] once it has it. *)
Definition get_name (module : PyObj) (callback : Continuation) : M unit :=
  match module with
  | ObjModule m => emit (GetName m callback)
  | ObjTuple _ _ => raise AttributeError
  end.

(** The loop of [Controller.get_modules], [result] being the list built so
    far.  The left operand of [in] is evaluated before the right one. *)
Fixpoint get_modules_loop (items : list PyObj) (category : string)
    (result : list PyObj) : M (list PyObj) :=
  match items with
  | [] => ret result
  | module :: rest =>
      name <- get_module_name module ;;
      names <- lift (categories_get MODULE_CATEGORIES category) ;;
      if str_in name names
      then get_modules_loop rest category (result ++ [module])
      else get_modules_loop rest category result
  end.

(** [Controller.get_modules] *)
Definition get_modules (category : string) : M (list PyObj) :=
  st <- get ;;
  get_modules_loop (dict_items (_modules st)) category [].

(** [self.__scan_callback()] *)
Definition call_scan_callback : M unit :=
  st <- get ;;
  match scan_callback st with
  | Some c => emit (CallScanCallback c)
  | None => raise TypeError
  end.

(** The closure [module_loaded] of [Controller.scan]. *)
Definition module_loaded : M unit :=
  st <- get ;;
  put {| subscribers := subscribers st;
         scan_callback := scan_callback st;
         _modules := _modules st;
         _modules_loaded := _modules_loaded st + 1 |} ;;
  st <- get ;;
  let nb_modules := Z.of_nat (List.length (dict_items (_modules st))) in
  t1 <- lift (py_add (PyStr "Module loaded (") (PyInt (_modules_loaded st))) ;;
  t2 <- lift (py_add t1 (PyStr " out of ")) ;;
  t3 <- lift (py_add t2 (PyInt nb_modules)) ;;
  log INFO (log_module_loaded t3) ;;
  when (_modules_loaded st >=? nb_modules) call_scan_callback.

(** The closure [scan_finished] of [Controller.scan]. *)
Definition scan_finished : M unit :=
  emit (Sleep 3) ;;
  log INFO (log_text "Scan finished") ;;
  st <- get ;;
  for_each (dict_values (_modules st)) (fun module =>
    get_name module module_loaded_k).

(** [Controller.scan] *)
Definition scan (callback : option Callback) : M unit :=
  st <- get ;;
  if truthy (scan_callback st)
  then raise (Exception "Scan already in progress, wait till finished")
  else
    put {| subscribers := subscribers st;
           scan_callback := callback;
           _modules := _modules st;
           _modules_loaded := _modules_loaded st |} ;;
    for_each (range 0 256) (fun address =>
      let message := ModuleTypeRequestMessage address in
      if address =? 255
      then send message (Some scan_finished_k)
      else send message None).

Section Dispatch.

(** The type names that have a constructor in [velbus.ModuleRegistry]. *)
Variable ModuleRegistry : list string.

(** The [ModuleTypeMessage] branch of [Controller.new_message]; the
    result tells whether the method returned from inside the branch. *)
Definition module_type_response (address : Address) (module_type : Z)
    (name : string) : M bool :=
  log INFO (log_text "Module type response received") ;;
  if String.eqb name "Unknown" then
    log WARNING (log_unknown_module module_type) ;;
    ret true
  else
    (if str_in name ModuleRegistry then
       st <- get ;;
       let module := mkModule module_type name address in
       put {| subscribers := subscribers st;
              scan_callback := scan_callback st;
              _modules := dict_set (_modules st) address module;
              _modules_loaded := _modules_loaded st |}
     else
       log WARNING (log_not_supported name)) ;;
    ret false.

(** [Controller.new_message] *)
Definition new_message (message : Message) : M unit :=
  log INFO (log_new_message message) ;;
  when (match message with BusActiveMessage => true | _ => false end)
    (log INFO (log_text "Velbus active message received")) ;;
  when (match message with ReceiveReadyMessage => true | _ => false end)
    (log INFO (log_text "Velbus receive ready message received")) ;;
  when (match message with BusOffMessage => true | _ => false end)
    (log ERROR (log_text "Velbus bus off message received")) ;;
  when (match message with ReceiveBufferFullMessage => true | _ => false end)
    (log ERROR (log_text "Velbus receive buffer full message received")) ;;
  returned <- match message with
              | ModuleTypeMessage address module_type name =>
                  module_type_response address module_type name
              | _ => ret false
              end ;;
  if returned then ret tt
  else
    st <- get ;;
    for_each (subscribers st) (fun subscriber =>
      emit (CallSubscriber subscriber message)).

End Dispatch.

(** ** Calls from outside, and what a trace shows *)

(** The calls the environment can make on a controller: its public methods,
    and the two closures that [scan] hands to the transport and to the
    module drivers. *)
Inductive Op : Type :=
| call_feed_parser (data : PyValue)
| call_subscribe (s : Subscriber)
| call_unsubscribe (s : Subscriber)
| call_send (message : Message) (callback : option Callback)
| call_get_modules (category : string)
| call_scan (callback : option Callback)
| call_scan_finished
| call_module_loaded
| call_new_message (message : Message).

Definition exec (ModuleRegistry : list string) (o : Op) : M unit :=
  match o with
  | call_feed_parser data => feed_parser data
  | call_subscribe s => subscribe s
  | call_unsubscribe s => unsubscribe s
  | call_send message callback => send message (option_map user_k callback)
  | call_get_modules category => get_modules category ;; ret tt
  | call_scan callback => scan callback
  | call_scan_finished => scan_finished
  | call_module_loaded => module_loaded
  | call_new_message message => new_message ModuleRegistry message
  end.

(** A sequence of calls: an exception ends the call that raised it and goes
    to its caller, the controller stays as that call left it. *)
Fixpoint run_ops (ModuleRegistry : list string) (ops : list Op) (w : World) : World :=
  match ops with
  | [] => w
  | o :: rest => run_ops ModuleRegistry rest (snd (exec ModuleRegistry o w))
  end.

(** Invocations of the scan callback, in order. *)
Fixpoint callback_calls (tr : list Event) : list Callback :=
  match tr with
  | [] => []
  | CallScanCallback c :: rest => c :: callback_calls rest
  | _ :: rest => callback_calls rest
  end.

(** Messages handed to the transport, in order. *)
Fixpoint bus_requests (tr : list Event) : list Message :=
  match tr with
  | [] => []
  | ConnectionSend m _ :: rest => m :: bus_requests rest
  | _ :: rest => bus_requests rest
  end.

(** Name requests issued to module drivers, in order. *)
Fixpoint name_requests (tr : list Event) : list VelbusModule :=
  match tr with
  | [] => []
  | GetName m _ :: rest => m :: name_requests rest
  | _ :: rest => name_requests rest
  end.

(** What was handed to the parser, in order. *)
Fixpoint parser_input (tr : list Event) : list PyValue :=
  match tr with
  | [] => []
  | ParserFeed bs :: rest => bs :: parser_input rest
  | _ :: rest => parser_input rest
  end.

(** Subscriber calls, in order: who was called, and with which message. *)
Fixpoint deliveries (tr : list Event) : list (Subscriber * Message) :=
  match tr with
  | [] => []
  | CallSubscriber s m :: rest => (s, m) :: deliveries rest
  | _ :: rest => deliveries rest
  end.



(** A module type response whose [module_name()] is ["Unknown"]. *)
Definition unknown_module_type (m : Message) : bool :=
  match m with
  | ModuleTypeMessage _ _ name => String.eqb name "Unknown"
  | _ => false
  end.


(** The result of [get_modules] as the specification words it: the
    registered modules whose type name is listed for the category, in
    registry order; an unlisted category is an error. *)
Definition get_modules_spec (category : string) (st : Controller)
  : Outcome (list PyObj) :=
  match categories_get MODULE_CATEGORIES category with
  | Raise e => Raise e
  | Ret names =>
      Ret (filter (fun o => match o with
                            | ObjModule m => str_in (m_name m) names
                            | ObjTuple _ _ => false
                            end)
                  (dict_values (_modules st)))
  end.

(** A controller with one relay module at address 1. *)
Definition one_relay : Controller :=
  {| subscribers := [];
     scan_callback := None;
     _modules := [(1, mkModule 8 "VMB4RYLD" 1)];
     _modules_loaded := 0 |}.

(** A controller with subscriber 1 only. *)
Definition one_subscriber : Controller :=
  {| subscribers := [1%nat];
     scan_callback := None;
     _modules := [];
     _modules_loaded := 0 |}.

(** A controller in the middle of a scan started with callback 7. *)
Definition scanning : Controller :=
  {| subscribers := [];
     scan_callback := Some 7%nat;
     _modules := [];
     _modules_loaded := 0 |}.

(** The requests a scan puts on the bus: one per address, the last one with
    the completion continuation. *)
Definition scan_request (address : Z) : Event :=
  ConnectionSend (ModuleTypeRequestMessage address)
                 (if address =? 255 then Some scan_finished_k else None).

(** [self.__scan_callback = callback] *)
Definition with_scan_callback (st : Controller) (callback : option Callback)
  : Controller :=
  {| subscribers := subscribers st;
     scan_callback := callback;
     _modules := _modules st;
     _modules_loaded := _modules_loaded st |}.

(** Log records are the only events that neither reach the bus nor call
    anything handed to the controller. *)
Definition is_log (e : Event) : bool :=
  match e with
  | Log _ _ => true
  | _ => false
  end.

(** [self._modules] after [new_message]. *)
Definition modules_after (ModuleRegistry : list string) (m : Message)
    (d : list (Address * VelbusModule)) : list (Address * VelbusModule) :=
  match m with
  | ModuleTypeMessage address module_type name =>
      if String.eqb name "Unknown" then d
      else if str_in name ModuleRegistry
           then dict_set d address (mkModule module_type name address)
           else d
  | _ => d
  end.

(** ** One-shot parsing and binary sends *)

(** [isinstance(binary_message, str)] *)
Definition isinstance_str (v : PyValue) : bool :=
  match v with
  | PyStr _ => true
  | _ => false
  end.

Section Parser.

(** [self.parser.parse]: what the parser of the [velbus] package makes of
    one complete message.  It returns a [velbus.Message] ([Some]), something
    that is not one ([None]), or raises. *)
Variable parser_parse : PyValue -> Outcome (option Message).


(** [Controller.send_binary] *)
Definition send_binary (binary_message : PyValue) (callback : option Callback)
  : M unit :=
  if isinstance_str binary_message then
    message <- lift (parser_parse binary_message) ;;
    match message with
    | Some m => send m (option_map user_k callback)
    | None => ret tt
    end
  else raise AssertionError.

End Parser.

(** ** A transport that can fail *)

Section Transport.

(** [self.connection.send] of the connection the controller was built
    with: it returns, or raises. *)
Variable connection_send : Message -> option Continuation -> Outcome unit.

(** [Controller.send] over that connection: the call is recorded, then its
    outcome is the connection's. *)
Definition send_on (message : Message) (callback : option Continuation) : M unit :=
  emit (ConnectionSend message callback) ;;
  lift (connection_send message callback).

(** [Controller.scan] over that connection. *)
Definition scan_on (callback : option Callback) : M unit :=
  st <- get ;;
  if truthy (scan_callback st)
  then raise (Exception "Scan already in progress, wait till finished")
  else
    put {| subscribers := subscribers st;
           scan_callback := callback;
           _modules := _modules st;
           _modules_loaded := _modules_loaded st |} ;;
    for_each (range 0 256) (fun address =>
      let message := ModuleTypeRequestMessage address in
      if address =? 255
      then send_on message (Some scan_finished_k)
      else send_on message None).

End Transport.

(** A connection that raises on the request for one address. *)
Definition fails_at (k : Z) (e : PyExn) (message : Message)
    (callback : option Continuation) : Outcome unit :=
  match message with
  | ModuleTypeRequestMessage a => if a =? k then Raise e else Ret tt
  | _ => Ret tt
  end.

(** A parser that knows two texts. *)
Definition sample_parser (v : PyValue) : Outcome (option Message) :=
  match v with
  | PyStr s =>
      if String.eqb s "bus active" then Ret (Some BusActiveMessage)
      else if String.eqb s "type request 3" then Ret (Some (ModuleTypeRequestMessage 3))
      else Ret None
  | _ => Raise TypeError
  end.

(** ** Observations over whole runs *)

(** Messages handed to the transport with their completion callbacks. *)
Fixpoint sent (tr : list Event) : list (Message * option Continuation) :=
  match tr with
  | [] => []
  | ConnectionSend m k :: rest => (m, k) :: sent rest
  | _ :: rest => sent rest
  end.

(** The pauses of the controller, in seconds. *)
Fixpoint sleeps (tr : list Event) : list Z :=
  match tr with
  | [] => []
  | Sleep n :: rest => n :: sleeps rest
  | _ :: rest => sleeps rest
  end.

(** The messages a run hands to [new_message], in order. *)
Fixpoint messages_of (ops : list Op) : list Message :=
  match ops with
  | [] => []
  | call_new_message m :: rest => m :: messages_of rest
  | _ :: rest => messages_of rest
  end.

(** The number of calls of [module_loaded] in a run. *)
Fixpoint loaded_calls (ops : list Op) : Z :=
  match ops with
  | [] => 0
  | call_module_loaded :: rest => 1 + loaded_calls rest
  | _ :: rest => loaded_calls rest
  end.


Definition is_new_message (o : Op) : bool :=
  match o with
  | call_new_message _ => true
  | _ => false
  end.

(** The module a message announces for an address: a module type response
    for that address whose type name is known and has a constructor. *)
Definition announces (ModuleRegistry : list string) (a : Address) (m : Message)
  : option VelbusModule :=
  match m with
  | ModuleTypeMessage address module_type name =>
      if negb (String.eqb name "Unknown") && str_in name ModuleRegistry
         && (address =? a)
      then Some (mkModule module_type name address)
      else None
  | _ => None
  end.

(** The module last announced for an address by a sequence of messages,
    [before] when none of them announces one. *)
Fixpoint last_announced (ModuleRegistry : list string) (a : Address)
    (ms : list Message) (before : option VelbusModule) : option VelbusModule :=
  match ms with
  | [] => before
  | m :: rest =>
      last_announced ModuleRegistry a rest
        (match announces ModuleRegistry a m with
         | Some module => Some module
         | None => before
         end)
  end.

(** Every entry of the registry sits at the address it was built with and
    has a known type name with a constructor. *)
Definition well_formed (ModuleRegistry : list string)
    (d : list (Address * VelbusModule)) : Prop :=
  forall a module, In (a, module) d ->
    m_address module = a /\
    str_in (m_name module) ModuleRegistry = true /\
    String.eqb (m_name module) "Unknown" = false.

Definition level_eqb (a b : Level) : bool :=
  match a, b with
  | INFO, INFO | WARNING, WARNING | ERROR, ERROR => true
  | _, _ => false
  end.

(** The records logged at one level, in order. *)
Fixpoint logged (lvl : Level) (tr : list Event) : list LogRecord :=
  match tr with
  | [] => []
  | Log l r :: rest =>
      if level_eqb l lvl then r :: logged lvl rest else logged lvl rest
  | _ :: rest => logged lvl rest
  end.

(** * Properties *)

(** ** Traces *)

Lemma world_eta (w : World) : {| self := self w; trace := trace w |} = w.
Proof. destruct w; reflexivity. Qed.

Lemma controller_eta (st : Controller) :
  {| subscribers := subscribers st;
     scan_callback := scan_callback st;
     _modules := _modules st;
     _modules_loaded := _modules_loaded st |} = st.
Proof. destruct st; reflexivity. Qed.

(** A loop whose body only emits one event per element emits them in the
    order of the list and touches nothing else. *)
Lemma for_each_emits {A} (f : A -> Event) (body : A -> M unit) :
  (forall x w, body x w = (Ret tt, {| self := self w; trace := trace w ++ [f x] |})) ->
  forall xs w,
    for_each xs body w
    = (Ret tt, {| self := self w; trace := trace w ++ map f xs |}).
Proof.
  intros Hbody xs; induction xs as [| x xs IH]; intros w; simpl.
  - unfold ret. now rewrite app_nil_r, world_eta.
  - unfold bind. rewrite Hbody, IH. simpl.
    now rewrite <- app_assoc.
Qed.

Lemma for_each_map {A B} (g : A -> B) (body : B -> M unit) (xs : list A) :
  for_each (map g xs) body = for_each xs (fun x => body (g x)).
Proof. induction xs as [| x xs IH]; simpl; now rewrite ?IH. Qed.

Lemma callback_calls_app (a b : list Event) :
  callback_calls (a ++ b) = callback_calls a ++ callback_calls b.
Proof.
  induction a as [| e a IH]; simpl; [reflexivity |].
  destruct e; simpl; now rewrite ?IH.
Qed.

Lemma bus_requests_app (a b : list Event) :
  bus_requests (a ++ b) = bus_requests a ++ bus_requests b.
Proof.
  induction a as [| e a IH]; simpl; [reflexivity |].
  destruct e; simpl; now rewrite ?IH.
Qed.

Lemma deliveries_app (a b : list Event) :
  deliveries (a ++ b) = deliveries a ++ deliveries b.
Proof.
  induction a as [| e a IH]; simpl; [reflexivity |].
  destruct e; simpl; now rewrite ?IH.
Qed.






Lemma list_remove_absent (x : Subscriber) (l : list Subscriber) :
  ~ In x l -> list_remove x l = None.
Proof.
  induction l as [| y l IH]; simpl; intros Hnin; [reflexivity |].
  destruct (Nat.eqb_spec y x) as [-> | Hne].
  - exfalso; apply Hnin; now left.
  - rewrite IH; [reflexivity | tauto].
Qed.

Lemma list_remove_present (x : Subscriber) (l : list Subscriber) :
  In x l -> exists l', list_remove x l = Some l' /\ S (List.length l') = List.length l.
Proof.
  induction l as [| y l IH]; simpl; intros Hin; [contradiction |].
  destruct (Nat.eqb_spec y x) as [-> | Hne].
  - now exists l.
  - destruct Hin as [-> | Hin]; [contradiction |].
    destruct (IH Hin) as (l' & -> & Hlen).
    exists (y :: l'); simpl. now rewrite Hlen.
Qed.

(** ** Scanning *)

Lemma scan_idle (callback : option Callback) (w : World) :
  scan_callback (self w) = None ->
  scan callback w
  = (Ret tt, {| self := with_scan_callback (self w) callback;
                trace := trace w ++ map scan_request (range 0 256) |}).
Proof.
  intros Hidle. unfold scan, bind, get. rewrite Hidle. cbn [truthy].
  unfold put. cbn [self trace].
  rewrite (for_each_emits scan_request).
  - reflexivity.
  - intros x w'. unfold scan_request, send, emit.
    now destruct (x =? 255).
Qed.

Lemma scan_active (callback : option Callback) (w : World) (c : Callback) :
  scan_callback (self w) = Some c ->
  scan callback w
  = (Raise (Exception "Scan already in progress, wait till finished"), w).
Proof.
  intros Hactive. unfold scan, bind, get. rewrite Hactive. reflexivity.
Qed.




(** A scan started without a callback stores [None]: the controller then
    holds no active session, and the next [scan] goes through. *)
Lemma scan_without_callback_stores_none (w : World) :
  scan_callback (self w) = None ->
  scan_callback (self (snd (scan None w))) = None.
Proof. intros Hidle. now rewrite (scan_idle None w Hidle). Qed.

Lemma module_loaded_raises (w : World) :
  module_loaded w
  = (Raise TypeError,
     {| self := {| subscribers := subscribers (self w);
                   scan_callback := scan_callback (self w);
                   _modules := _modules (self w);
                   _modules_loaded := _modules_loaded (self w) + 1 |};
        trace := trace w |}).
Proof. reflexivity. Qed.

Lemma scan_finished_requests_names (w : World) :
  scan_finished w
  = (Ret tt,
     {| self := self w;
        trace := (trace w ++ [Sleep 3; Log INFO (log_text "Scan finished")])
                 ++ map (fun kv => GetName (snd kv) module_loaded_k)
                        (_modules (self w)) |}).
Proof.
  unfold scan_finished, bind, log, emit, get. cbn [self trace].
  unfold dict_values. rewrite for_each_map.
  rewrite (for_each_emits (fun kv => GetName (snd kv) module_loaded_k)).
  - cbn [self trace]. now rewrite <- (app_assoc (trace w) [Sleep 3]).
  - intros x w'. reflexivity.
Qed.

(** ** Dispatch *)

Ltac unfold_dispatch :=
  unfold new_message, module_type_response, bind, when, log, emit, get, put, ret;
  cbn [self trace].

Ltac fan_out m :=
  split; [reflexivity |];
  try rewrite (for_each_emits (fun s => CallSubscriber s m)) by reflexivity;
  cbn [self trace subscribers scan_callback _modules _modules_loaded];
  rewrite <- ?app_assoc; cbn [app]; rewrite ?controller_eta; reflexivity.

Lemma new_message_effect (reg : list string) (m : Message) (w : World) :
  exists logs,
    forallb is_log logs = true /\
    new_message reg m w
    = (Ret tt,
       {| self := {| subscribers := subscribers (self w);
                     scan_callback := scan_callback (self w);
                     _modules := modules_after reg m (_modules (self w));
                     _modules_loaded := _modules_loaded (self w) |};
          trace := trace w ++ logs
                   ++ (if unknown_module_type m then []
                       else map (fun s => CallSubscriber s m)
                                (subscribers (self w))) |}).
Proof.
  destruct m as [ | | | | address module_type name | address | command address data ];
    unfold_dispatch; cbn [unknown_module_type modules_after].
  - exists [Log INFO (log_new_message BusActiveMessage);
            Log INFO (log_text "Velbus active message received")].
    fan_out BusActiveMessage.
  - exists [Log INFO (log_new_message ReceiveReadyMessage);
            Log INFO (log_text "Velbus receive ready message received")].
    fan_out ReceiveReadyMessage.
  - exists [Log INFO (log_new_message BusOffMessage);
            Log ERROR (log_text "Velbus bus off message received")].
    fan_out BusOffMessage.
  - exists [Log INFO (log_new_message ReceiveBufferFullMessage);
            Log ERROR (log_text "Velbus receive buffer full message received")].
    fan_out ReceiveBufferFullMessage.
  - destruct (String.eqb name "Unknown") eqn:Hname; cbn [self trace].
    + exists [Log INFO (log_new_message (ModuleTypeMessage address module_type name));
              Log INFO (log_text "Module type response received");
              Log WARNING (log_unknown_module module_type)].
      fan_out (ModuleTypeMessage address module_type name).
    + destruct (str_in name reg) eqn:Hreg; cbn [self trace fst snd].
      * exists [Log INFO (log_new_message (ModuleTypeMessage address module_type name));
                Log INFO (log_text "Module type response received")].
        fan_out (ModuleTypeMessage address module_type name).
      * exists [Log INFO (log_new_message (ModuleTypeMessage address module_type name));
                Log INFO (log_text "Module type response received");
                Log WARNING (log_not_supported name)].
        fan_out (ModuleTypeMessage address module_type name).
  - exists [Log INFO (log_new_message (ModuleTypeRequestMessage address))].
    fan_out (ModuleTypeRequestMessage address).
  - exists [Log INFO (log_new_message (OtherMessage command address data))].
    fan_out (OtherMessage command address data).
Qed.



Lemma callback_calls_logs (logs : list Event) :
  forallb is_log logs = true -> callback_calls logs = [].
Proof.
  induction logs as [| e logs IH]; simpl; [reflexivity |].
  destruct e; simpl; try discriminate. exact IH.
Qed.

Lemma callback_calls_subscribers (m : Message) (l : list Subscriber) :
  callback_calls (map (fun s => CallSubscriber s m) l) = [].
Proof. induction l as [| s l IH]; simpl; [reflexivity | exact IH]. Qed.



(** ** Subscriptions *)





(** ** The registry *)

Lemma dict_get_set_same {V} (d : list (Z * V)) (key : Z) (value : V) :
  dict_get (dict_set d key value) key = Some value.
Proof.
  induction d as [| [k v] d IH]; simpl.
  - now rewrite Z.eqb_refl.
  - destruct (k =? key) eqn:Hk; simpl; now rewrite Hk.
Qed.

Lemma dict_get_set_other {V} (d : list (Z * V)) (key a : Z) (value : V) :
  a <> key -> dict_get (dict_set d key value) a = dict_get d a.
Proof.
  intros Hne. induction d as [| [k v] d IH]; simpl.
  - destruct (Z.eqb_spec key a); [congruence | reflexivity].
  - destruct (Z.eqb_spec k key) as [-> | Hk]; simpl.
    + destruct (Z.eqb_spec key a); [congruence | reflexivity].
    + now rewrite IH.
Qed.

Lemma dict_set_present_keys {V} (d : list (Z * V)) (key : Z) (old value : V) :
  dict_get d key = Some old ->
  map fst (dict_set d key value) = map fst d.
Proof.
  induction d as [| [k v] d IH]; simpl; [discriminate |].
  destruct (k =? key) eqn:Hk; simpl; intros Hget; [reflexivity |].
  now rewrite IH.
Qed.

(** C4 (amended): when a module type response of a recognised, supported
    type arrives for an address that is already registered, the registry
    maps that address to a module built from the later response; the
    registered addresses, their order, and the modules at the other
    addresses stay as they were. *)
Theorem reannounce_last_write_wins (reg : list string) (w : World)
    (address : Address) (module_type : Z) (name : string)
    (original : VelbusModule) :
  dict_get (_modules (self w)) address = Some original ->
  String.eqb name "Unknown" = false ->
  str_in name reg = true ->
  let w' := snd (new_message reg (ModuleTypeMessage address module_type name) w) in
  dict_get (_modules (self w')) address = Some (mkModule module_type name address) /\
  map fst (_modules (self w')) = map fst (_modules (self w)) /\
  (forall a, a <> address ->
             dict_get (_modules (self w')) a = dict_get (_modules (self w)) a).
Proof.
  intros Hold Hname Hreg w'. subst w'.
  destruct (new_message_effect reg (ModuleTypeMessage address module_type name) w)
    as (logs & _ & ->).
  cbn [snd self _modules modules_after]. rewrite Hname, Hreg.
  split; [apply dict_get_set_same |].
  split; [now apply dict_set_present_keys with (old := original) |].
  intros a Ha. now apply dict_get_set_other.
Qed.

Lemma reannounce_last_write_wins_witness :
  dict_get (_modules one_relay) 1 = Some (mkModule 8 "VMB4RYLD" 1) /\
  dict_get (_modules (self (snd (new_message ["VMB4RYLD"%string; "VMB6IN"%string]
                                   (ModuleTypeMessage 1 5 "VMB6IN")
                                   {| self := one_relay; trace := [] |}))))
           1
  = Some (mkModule 5 "VMB6IN" 1).
Proof.
  split; [reflexivity |].
  apply (reannounce_last_write_wins ["VMB4RYLD"%string; "VMB6IN"%string]
           {| self := one_relay; trace := [] |} 1 5 "VMB6IN"
           (mkModule 8 "VMB4RYLD" 1) eq_refl eq_refl eq_refl).
Defined.

(** C4 (as stated) fails: address 1 holds a relay module, a response of
    another supported type arrives for address 1, and the registry no
    longer maps the address to the original module. *)
Lemma reannounce_replaces_original :
  dict_get (_modules one_relay) 1 = Some (mkModule 8 "VMB4RYLD" 1) /\
  dict_get (_modules (self (snd (run (new_message ["VMB4RYLD"%string; "VMB6IN"%string]
                                        (ModuleTypeMessage 1 5 "VMB6IN"))
                                     one_relay))))
           1
  <> Some (mkModule 8 "VMB4RYLD" 1).
Proof. split; [reflexivity |]. vm_compute. discriminate. Qed.

(** Any registered module makes [get_modules] fail: its loop variable is a
    [(address, module)] tuple, which has no [get_module_name]. *)
Lemma get_modules_registered_raises (category : string) (w : World) :
  _modules (self w) <> [] ->
  get_modules category w = (Raise AttributeError, w).
Proof.
  unfold get_modules, bind, get.
  destruct (_modules (self w)) as [| kv d]; [congruence |].
  reflexivity.
Qed.

Lemma get_modules_empty (category : string) (w : World) :
  _modules (self w) = [] ->
  get_modules category w = (Ret [], w).
Proof.
  intros Hempty. unfold get_modules, bind, get. now rewrite Hempty.
Qed.

Lemma get_modules_pure (category : string) (w : World) :
  snd (get_modules category w) = w.
Proof.
  destruct (_modules (self w)) as [| kv d] eqn:Hd.
  - now rewrite get_modules_empty.
  - rewrite get_modules_registered_raises; [reflexivity | congruence].
Qed.

(** C6 (code at the failing input): with a relay module registered at
    address 1, the category ["switch"] lists its type name, so the claim
    promises that module; [get_modules] raises [AttributeError] instead. *)
Theorem get_modules_switch_raises :
  get_modules_spec "switch" one_relay = Ret [ObjModule (mkModule 8 "VMB4RYLD" 1)] /\
  run (get_modules "switch") one_relay
  = (Raise AttributeError, {| self := one_relay; trace := [] |}).
Proof. split; reflexivity. Qed.

(** C7 (amended): a call of [get_modules] with a category that is not in
    the category table changes nothing in the controller and calls nothing
    outside it; on an empty registry it returns the empty list. *)
Theorem get_modules_unlisted_category (category : string) (w : World) :
  categories_get MODULE_CATEGORIES category = Raise (KeyError category) ->
  snd (get_modules category w) = w /\
  (_modules (self w) = [] -> fst (get_modules category w) = Ret []).
Proof.
  intros _. split; [apply get_modules_pure |].
  intros Hempty. now rewrite get_modules_empty.
Qed.

Lemma get_modules_unlisted_category_witness :
  categories_get MODULE_CATEGORIES "light" = Raise (KeyError "light") /\
  snd (get_modules "light" {| self := init; trace := [] |})
  = {| self := init; trace := [] |} /\
  fst (get_modules "light" {| self := init; trace := [] |}) = Ret [].
Proof.
  split; [reflexivity |].
  destruct (get_modules_unlisted_category "light"
              {| self := init; trace := [] |} eq_refl) as [H1 H2].
  split; [exact H1 | exact (H2 eq_refl)].
Defined.

(** C7 (as stated) fails: ["light"] is not in the category table, and on an
    empty registry [get_modules "light"] returns the empty list instead of
    raising. *)
Lemma get_modules_unlisted_category_returns :
  categories_get MODULE_CATEGORIES "light" = Raise (KeyError "light") /\
  fst (run (get_modules "light") init) = Ret [] /\
  forall e, fst (run (get_modules "light") init) <> Raise e.
Proof. repeat split. intros e. vm_compute. discriminate. Qed.

(** C8 (amended): [unsubscribe] of an observer that has no entry in the
    subscriber list raises [ValueError] and leaves the controller, hence
    later delivery, as it was. *)
Theorem unsubscribe_absent_raises (s : Subscriber) (w : World) :
  ~ In s (subscribers (self w)) ->
  unsubscribe s w = (Raise ValueError, w).
Proof.
  intros Hnin. unfold unsubscribe, bind, get.
  now rewrite (list_remove_absent s _ Hnin).
Qed.

Lemma unsubscribe_absent_raises_witness :
  ~ In 2%nat (subscribers one_subscriber) /\
  unsubscribe 2%nat {| self := one_subscriber; trace := [] |}
  = (Raise ValueError, {| self := one_subscriber; trace := [] |}).
Proof.
  assert (Hnin : ~ In 2%nat (subscribers (self {| self := one_subscriber; trace := [] |}))).
  { simpl. intros [H | []]. discriminate H. }
  split; [exact Hnin |].
  exact (unsubscribe_absent_raises 2%nat {| self := one_subscriber; trace := [] |} Hnin).
Defined.

(** C8 (as stated) fails: observer 2 is not subscribed, and unsubscribing it
    raises [ValueError]. *)
Lemma unsubscribe_absent_is_an_error :
  ~ In 2%nat (subscribers one_subscriber) /\
  fst (run (unsubscribe 2%nat) one_subscriber) <> Ret tt.
Proof.
  split.
  - simpl. intros [H | []]. discriminate H.
  - vm_compute. discriminate.
Qed.

(** C9: [feed_parser] raises [AssertionError], with nothing handed to the
    parser and the controller untouched, on every value that is not a
    [bytes] object, and hands every [bytes] chunk to the parser as it is. *)
Theorem feed_parser_bytes_only (data : PyValue) (w : World) :
  (isinstance_bytes data = false ->
   feed_parser data w = (Raise AssertionError, w)) /\
  (forall bs, data = PyBytes bs ->
     fst (feed_parser data w) = Ret tt /\
     self (snd (feed_parser data w)) = self w /\
     trace (snd (feed_parser data w)) = trace w ++ [ParserFeed (PyBytes bs)] /\
     parser_input (trace (snd (run (feed_parser data) (self w)))) = [PyBytes bs]).
Proof.
  split.
  - intros Hnot. unfold feed_parser. now rewrite Hnot.
  - intros bs ->. repeat split.
Qed.

Lemma feed_parser_bytes_only_witness :
  feed_parser (PyStr "0f") {| self := init; trace := [] |}
  = (Raise AssertionError, {| self := init; trace := [] |}) /\
  feed_parser (PyByteArray [Byte.x0f]) {| self := init; trace := [] |}
  = (Raise AssertionError, {| self := init; trace := [] |}) /\
  trace (snd (feed_parser (PyBytes [Byte.x0f; Byte.xf8]) {| self := init; trace := [] |}))
  = [ParserFeed (PyBytes [Byte.x0f; Byte.xf8])].
Proof.
  split; [| split].
  - exact (proj1 (feed_parser_bytes_only (PyStr "0f") {| self := init; trace := [] |})
                 eq_refl).
  - exact (proj1 (feed_parser_bytes_only (PyByteArray [Byte.x0f])
                    {| self := init; trace := [] |}) eq_refl).
  - exact (proj1 (proj2 (proj2 (proj2 (feed_parser_bytes_only
                    (PyBytes [Byte.x0f; Byte.xf8]) {| self := init; trace := [] |})
                    [Byte.x0f; Byte.xf8] eq_refl)))).
Defined.

(** ** The scan session over whole runs *)

Lemma callback_calls_requests (l : list Z) :
  callback_calls (map scan_request l) = [].
Proof. induction l as [| a l IH]; simpl; [reflexivity | exact IH]. Qed.

Lemma callback_calls_names (k : Continuation) (d : list (Address * VelbusModule)) :
  callback_calls (map (fun kv => GetName (snd kv) k) d) = [].
Proof. induction d as [| kv d IH]; simpl; [reflexivity | exact IH]. Qed.

(** No call on the controller ever reaches the scan callback: the only
    place that calls it is behind the string concatenation of
    [module_loaded], which raises. *)
Lemma exec_never_calls_back (reg : list string) (o : Op) (w : World) :
  callback_calls (trace (snd (exec reg o w))) = callback_calls (trace w).
Proof.
  destruct o as [data | s | s | m k | category | callback | | | m]; cbn [exec].
  - destruct data; cbn; rewrite ?callback_calls_app; cbn; now rewrite ?app_nil_r.
  - reflexivity.
  - unfold unsubscribe, bind, get.
    now destruct (list_remove s (subscribers (self w))).
  - cbn. rewrite callback_calls_app. cbn. now rewrite app_nil_r.
  - unfold bind at 1.
    pose proof (get_modules_pure category w) as Hpure.
    destruct (get_modules category w) as [[r | e] w0]; cbn in Hpure |- *; now subst.
  - destruct (scan_callback (self w)) as [c |] eqn:Hc.
    + now rewrite (scan_active callback w c Hc).
    + rewrite (scan_idle callback w Hc). cbn [snd trace].
      now rewrite callback_calls_app, callback_calls_requests, app_nil_r.
  - rewrite scan_finished_requests_names. cbn [snd trace].
    rewrite !callback_calls_app, callback_calls_names. cbn. now rewrite !app_nil_r.
  - now rewrite module_loaded_raises.
  - destruct (new_message_effect reg m w) as (logs & Hlogs & ->). cbn [snd trace].
    rewrite !callback_calls_app, (callback_calls_logs logs Hlogs).
    destruct (unknown_module_type m); cbn [app];
      now rewrite ?callback_calls_subscribers, app_nil_r.
Qed.

Lemma scan_callback_never_called (reg : list string) (ops : list Op) (w : World) :
  callback_calls (trace (run_ops reg ops w)) = callback_calls (trace w).
Proof.
  revert w. induction ops as [| o ops IH]; intros w; simpl; [reflexivity |].
  now rewrite IH, exec_never_calls_back.
Qed.

(** Once a callback is stored, no call on the controller clears or
    replaces it. *)
Lemma exec_keeps_scan_callback (reg : list string) (o : Op) (w : World) (c : Callback) :
  scan_callback (self w) = Some c ->
  scan_callback (self (snd (exec reg o w))) = Some c.
Proof.
  intros Hc.
  destruct o as [data | s | s | m k | category | callback | | | m]; cbn [exec].
  - now destruct data.
  - exact Hc.
  - unfold unsubscribe, bind, get.
    now destruct (list_remove s (subscribers (self w))).
  - exact Hc.
  - unfold bind at 1.
    pose proof (get_modules_pure category w) as Hpure.
    destruct (get_modules category w) as [[r | e] w0]; cbn in Hpure |- *; now subst.
  - now rewrite (scan_active callback w c Hc).
  - now rewrite scan_finished_requests_names.
  - now rewrite module_loaded_raises.
  - now destruct (new_message_effect reg m w) as (logs & _ & ->).
Qed.

Lemma scan_callback_is_kept (reg : list string) (ops : list Op) (w : World)
    (c : Callback) :
  scan_callback (self w) = Some c ->
  scan_callback (self (run_ops reg ops w)) = Some c.
Proof.
  revert w. induction ops as [| o ops IH]; intros w Hc; simpl; [exact Hc |].
  apply IH. now apply exec_keeps_scan_callback.
Qed.

(** [scan] never touches the loaded count. *)
Lemma scan_keeps_loaded_count (callback : option Callback) (w : World) :
  _modules_loaded (self (snd (scan callback w))) = _modules_loaded (self w).
Proof.
  destruct (scan_callback (self w)) as [c |] eqn:Hc.
  - now rewrite (scan_active callback w c Hc).
  - now rewrite (scan_idle callback w Hc).
Qed.

(** C1 (code at the failing input): a scan with callback 7 on a new
    controller, no module answering, then the completion of the request for
    address 255.  The registry is empty, so the claim has the callback fire
    at once; [scan_finished] asks no module for its name and the callback is
    not called. *)
Theorem empty_scan_never_completes :
  let w := run_ops [] [call_scan (Some 7%nat); call_scan_finished]
                   {| self := init; trace := [] |} in
  List.length (bus_requests (trace w)) = 256%nat /\
  _modules (self w) = [] /\
  name_requests (trace w) = [] /\
  callback_calls (trace w) = [].
Proof. vm_compute. repeat split. Qed.

(** C5 (code at the failing input): after the same scan, with every one of
    the zero registered modules loaded, the stored callback is still set
    and a new [scan] raises; and a scan started after one call of
    [module_loaded] starts with a loaded count of 1. *)
Theorem scan_session_is_never_cleared :
  (let w := run_ops [] [call_scan (Some 7%nat); call_scan_finished]
                    {| self := init; trace := [] |} in
   name_requests (trace w) = [] /\
   scan_callback (self w) = Some 7%nat /\
   fst (scan (Some 8%nat) w)
   = Raise (Exception "Scan already in progress, wait till finished")) /\
  (let w := run_ops ["VMB4RYLD"%string]
                    [call_scan None;
                     call_new_message (ModuleTypeMessage 1 8 "VMB4RYLD");
                     call_scan_finished;
                     call_module_loaded;
                     call_scan (Some 7%nat)]
                    {| self := init; trace := [] |} in
   scan_callback (self w) = Some 7%nat /\
   _modules_loaded (self w) = 1).
Proof. vm_compute. repeat split. Qed.

(** * Further properties of the controller *)

(** ** What one call changes *)

Ltac by_call reg o w :=
  destruct o as [data | s | s | m k | category | callback | | | m]; cbn [exec];
  [ now destruct data
  | reflexivity
  | unfold unsubscribe, bind, get;
    now destruct (list_remove s (subscribers (self w)))
  | reflexivity
  | let Hpure := fresh "Hpure" in
    let r := fresh "r" in let e := fresh "e" in let w0 := fresh "w0" in
    unfold bind at 1;
    pose proof (get_modules_pure category w) as Hpure;
    destruct (get_modules category w) as [[r | e] w0]; cbn in Hpure |- *; now subst
  | let c := fresh "c" in let Hc := fresh "Hc" in
    destruct (scan_callback (self w)) as [c |] eqn:Hc;
    [ now rewrite (scan_active callback w c Hc)
    | now rewrite (scan_idle callback w Hc) ]
  | now rewrite scan_finished_requests_names
  | now rewrite module_loaded_raises
  | let logs := fresh "logs" in
    now destruct (new_message_effect reg m w) as (logs & _ & ->) ].

Lemma exec_modules (reg : list string) (o : Op) (w : World) :
  _modules (self (snd (exec reg o w)))
  = match o with
    | call_new_message m => modules_after reg m (_modules (self w))
    | _ => _modules (self w)
    end.
Proof. by_call reg o w. Qed.

Lemma exec_loaded_count (reg : list string) (o : Op) (w : World) :
  _modules_loaded (self (snd (exec reg o w)))
  = _modules_loaded (self w)
    + match o with
      | call_module_loaded => 1
      | _ => 0
      end.
Proof.
  destruct o; try (rewrite Z.add_0_r).
  9: { cbn [exec]. destruct (new_message_effect reg message w) as (logs & _ & ->).
       reflexivity. }
  8: { cbn [exec]. now rewrite module_loaded_raises. }
  - now destruct data.
  - reflexivity.
  - cbn [exec]. unfold unsubscribe, bind, get.
    now destruct (list_remove s (subscribers (self w))).
  - reflexivity.
  - cbn [exec]. unfold bind at 1.
    pose proof (get_modules_pure category w) as Hpure.
    destruct (get_modules category w) as [[r | e] w0]; cbn in Hpure |- *; now subst.
  - cbn [exec]. apply scan_keeps_loaded_count.
  - cbn [exec]. now rewrite scan_finished_requests_names.
Qed.

Lemma exec_subscribers (reg : list string) (o : Op) (w : World) :
  subscribers (self (snd (exec reg o w)))
  = match o with
    | call_subscribe s => subscribers (self w) ++ [s]
    | call_unsubscribe s =>
        match list_remove s (subscribers (self w)) with
        | Some l => l
        | None => subscribers (self w)
        end
    | _ => subscribers (self w)
    end.
Proof. by_call reg o w. Qed.

Lemma run_ops_app (reg : list string) (a b : list Op) (w : World) :
  run_ops reg (a ++ b) w = run_ops reg b (run_ops reg a w).
Proof. revert w. induction a as [| o a IH]; intros w; simpl; [reflexivity | apply IH]. Qed.

Lemma run_modules (reg : list string) (ops : list Op) (w : World) :
  _modules (self (run_ops reg ops w))
  = fold_left (fun d m => modules_after reg m d) (messages_of ops) (_modules (self w)).
Proof.
  revert w. induction ops as [| o ops IH]; intros w; simpl; [reflexivity |].
  rewrite IH, exec_modules. now destruct o.
Qed.

(** ** Scans *)

Lemma sent_app (a b : list Event) : sent (a ++ b) = sent a ++ sent b.
Proof.
  induction a as [| e a IH]; simpl; [reflexivity |].
  destruct e; simpl; now rewrite ?IH.
Qed.

Lemma sent_requests (l : list Z) :
  sent (map scan_request l)
  = map (fun a => (ModuleTypeRequestMessage a,
                   if a =? 255 then Some scan_finished_k else None)) l.
Proof. induction l as [| a l IH]; simpl; now rewrite ?IH. Qed.

Lemma bus_requests_requests (l : list Z) :
  bus_requests (map scan_request l) = map ModuleTypeRequestMessage l.
Proof. induction l as [| a l IH]; simpl; now rewrite ?IH. Qed.

Lemma range_seq (n : nat) (lo : Z) :
  range lo n = map (fun i => lo + Z.of_nat i) (seq 0 n).
Proof.
  revert lo. induction n as [| n IH]; intros lo; [reflexivity |].
  cbn [range seq map]. rewrite IH, <- seq_shift, map_map.
  f_equal; [lia |].
  apply map_ext. intros i. lia.
Qed.

Lemma in_range (a lo : Z) (n : nat) :
  In a (range lo n) <-> lo <= a < lo + Z.of_nat n.
Proof.
  rewrite range_seq, in_map_iff. split.
  - intros (i & <- & Hi). apply in_seq in Hi. lia.
  - intros Ha. exists (Z.to_nat (a - lo)). split; [lia |].
    apply in_seq. lia.
Qed.

Lemma nodup_range (lo : Z) (n : nat) : NoDup (range lo n).
Proof.
  revert lo. induction n as [| n IH]; intros lo; simpl; constructor.
  - rewrite in_range. lia.
  - apply IH.
Qed.

Lemma nodup_requests (l : list Z) :
  NoDup l -> NoDup (map ModuleTypeRequestMessage l).
Proof.
  induction 1 as [| a l Hnin _ IH]; simpl; constructor; [| exact IH].
  rewrite in_map_iff. intros (x & Hx & Hin). injection Hx as ->. now apply Hnin.
Qed.

(** X1: a scan on a controller that holds no callback succeeds, stores the
    callback it was given and changes no other field.  It hands 256 requests
    to the transport and nothing else: one module type request per address,
    in increasing order from 0 to 255, each address once, and only the
    request for address 255 carries the completion callback. *)
Theorem scan_requests_every_address (callback : option Callback) (w : World) :
  scan_callback (self w) = None ->
  exists new,
    scan callback w
    = (Ret tt, {| self := with_scan_callback (self w) callback;
                  trace := trace w ++ new |}) /\
    List.length new = 256%nat /\
    sent new
    = map (fun a => (ModuleTypeRequestMessage a,
                     if a =? 255 then Some scan_finished_k else None))
          (map Z.of_nat (seq 0 256)) /\
    NoDup (bus_requests new) /\
    (forall a, In (ModuleTypeRequestMessage a) (bus_requests new) <-> 0 <= a <= 255).
Proof.
  intros Hidle. exists (map scan_request (range 0 256)).
  split; [apply scan_idle, Hidle |].
  split; [now rewrite length_map |].
  split; [rewrite sent_requests; f_equal; now rewrite range_seq |].
  rewrite bus_requests_requests. split.
  - apply nodup_requests, nodup_range.
  - intros a. rewrite in_map_iff. split.
    + intros (x & Hx & Hin). injection Hx as ->. apply in_range in Hin. lia.
    + intros Ha. exists a. split; [reflexivity |]. apply in_range. lia.
Qed.

Lemma scan_requests_every_address_witness :
  exists new,
    scan (Some 7%nat) {| self := one_relay; trace := [] |}
    = (Ret tt, {| self := with_scan_callback one_relay (Some 7%nat);
                  trace := [] ++ new |}) /\
    List.length new = 256%nat /\
    In (ModuleTypeRequestMessage 255) (bus_requests new) /\
    ~ In (ModuleTypeRequestMessage 256) (bus_requests new).
Proof.
  destruct (scan_requests_every_address (Some 7%nat)
              {| self := one_relay; trace := [] |} eq_refl)
    as (new & Hscan & Hlen & _ & _ & Hin).
  exists new. split; [exact Hscan |]. split; [exact Hlen |]. split.
  - apply Hin. lia.
  - intros H. apply Hin in H. lia.
Defined.

(** X2: the guard of [scan] only sees a stored callback.  A scan started
    without a callback stores none, so a second scan right after it goes
    through as well, and the two together put 512 requests on the bus. *)
Theorem scan_without_callback_is_not_guarded (callback : option Callback) (w : World) :
  scan_callback (self w) = None ->
  fst (scan None w) = Ret tt /\
  fst (scan callback (snd (scan None w))) = Ret tt /\
  List.length (bus_requests (trace (snd (scan callback (snd (scan None w))))))
  = (List.length (bus_requests (trace w)) + 512)%nat.
Proof.
  intros Hidle. rewrite (scan_idle None w Hidle). cbn [fst snd].
  rewrite scan_idle by reflexivity. cbn [fst snd trace].
  repeat split.
  rewrite !bus_requests_app, !length_app, !bus_requests_requests, !length_map.
  rewrite range_seq, length_map, length_seq. lia.
Qed.

Lemma scan_without_callback_is_not_guarded_witness :
  fst (scan (Some 7%nat) (snd (scan None {| self := init; trace := [] |}))) = Ret tt /\
  List.length (bus_requests
    (trace (snd (scan (Some 7%nat) (snd (scan None {| self := init; trace := [] |}))))))
  = 512%nat.
Proof.
  destruct (scan_without_callback_is_not_guarded (Some 7%nat)
              {| self := init; trace := [] |} eq_refl) as (_ & H1 & H2).
  split; [exact H1 | exact H2].
Defined.

(** X3: once a callback is stored, whatever calls are made on the
    controller afterwards, every further [scan] raises the "already in
    progress" exception and leaves the world as it found it. *)
Theorem scan_blocked_for_good (reg : list string) (ops : list Op) (w : World)
    (c : Callback) (callback : option Callback) :
  scan_callback (self w) = Some c ->
  scan callback (run_ops reg ops w)
  = (Raise (Exception "Scan already in progress, wait till finished"),
     run_ops reg ops w).
Proof.
  intros Hc. apply scan_active with (c := c).
  now apply scan_callback_is_kept.
Qed.

Lemma scan_blocked_for_good_witness :
  fst (scan None
         (run_ops ["VMB4RYLD"%string]
                  [call_new_message (ModuleTypeMessage 1 8 "VMB4RYLD");
                   call_scan_finished; call_module_loaded]
                  {| self := scanning; trace := [] |}))
  = Raise (Exception "Scan already in progress, wait till finished").
Proof.
  rewrite (scan_blocked_for_good ["VMB4RYLD"%string]
             [call_new_message (ModuleTypeMessage 1 8 "VMB4RYLD");
              call_scan_finished; call_module_loaded]
             {| self := scanning; trace := [] |} 7%nat None eq_refl).
  reflexivity.
Defined.

(** X4: the loaded count is never reset and nothing but [module_loaded]
    changes it: after any run it is the count before the run plus the
    number of calls of [module_loaded] in the run, each of which raises. *)
Theorem loaded_count_counts_calls (reg : list string) (ops : list Op) (w : World) :
  _modules_loaded (self (run_ops reg ops w))
  = _modules_loaded (self w) + loaded_calls ops /\
  (forall w', fst (module_loaded w') = Raise TypeError).
Proof.
  split; [| intros w'; now rewrite module_loaded_raises].
  revert w. induction ops as [| o ops IH]; intros w.
  - cbn [run_ops loaded_calls]. lia.
  - cbn [run_ops]. rewrite IH, exec_loaded_count.
    destruct o;
      try change (loaded_calls (call_module_loaded :: ops)) with (1 + loaded_calls ops);
      cbn [loaded_calls]; lia.
Qed.

(** ** The registry over whole runs *)

Lemma dict_get_absent {V} (d : list (Z * V)) (key : Z) :
  dict_get d key = None -> ~ In key (map fst d).
Proof.
  induction d as [| [k v] d IH]; simpl; [tauto |].
  destruct (Z.eqb_spec k key) as [-> | Hne]; [discriminate |].
  intros Hget [Hk | Hin]; [contradiction | now apply IH].
Qed.

Lemma dict_set_keys {V} (d : list (Z * V)) (key : Z) (value : V) :
  map fst (dict_set d key value)
  = match dict_get d key with
    | Some _ => map fst d
    | None => map fst d ++ [key]
    end.
Proof.
  induction d as [| [k v] d IH]; simpl; [reflexivity |].
  destruct (k =? key); simpl; [reflexivity |].
  rewrite IH. now destruct (dict_get d key).
Qed.

Lemma dict_set_entries {V} (d : list (Z * V)) (key a : Z) (value x : V) :
  In (a, x) (dict_set d key value) -> (a, x) = (key, value) \/ In (a, x) d.
Proof.
  induction d as [| [k v] d IH]; simpl.
  - intros [H | []]; now left.
  - destruct (Z.eqb_spec k key) as [-> | Hne]; simpl.
    + intros [H | H]; [left; congruence | right; now right].
    + intros [H | H]; [right; now left |].
      destruct (IH H) as [Heq | Hin]; [now left | right; now right].
Qed.

Lemma modules_after_keys (reg : list string) (m : Message)
    (d : list (Address * VelbusModule)) :
  exists added,
    map fst (modules_after reg m d) = map fst d ++ added /\
    (NoDup (map fst d) -> NoDup (map fst d ++ added)).
Proof.
  assert (Hsame : exists added,
             map fst d = map fst d ++ added /\
             (NoDup (map fst d) -> NoDup (map fst d ++ added))).
  { exists []. rewrite app_nil_r. now split. }
  destruct m as [ | | | | address module_type name | address | command address data ];
    cbn [modules_after]; try exact Hsame.
  destruct (String.eqb name "Unknown"); [exact Hsame |].
  destruct (str_in name reg); [| exact Hsame].
  rewrite dict_set_keys.
  destruct (dict_get d address) eqn:Hget; [exact Hsame |].
  exists [address]. split; [reflexivity |].
  intros Hnodup. apply NoDup_app.
  - exact Hnodup.
  - constructor; [intros [] | constructor].
  - intros x Hx [Heq | []]. subst x. now apply (dict_get_absent d address Hget).
Qed.

Lemma modules_after_lookup (reg : list string) (m : Message)
    (d : list (Address * VelbusModule)) (a : Address) :
  dict_get (modules_after reg m d) a
  = match announces reg a m with
    | Some module => Some module
    | None => dict_get d a
    end.
Proof.
  destruct m as [ | | | | address module_type name | address | command address data ];
    cbn [modules_after announces]; try reflexivity.
  destruct (String.eqb name "Unknown"); [reflexivity |].
  destruct (str_in name reg); [| reflexivity].
  cbn [negb andb].
  destruct (Z.eqb_spec address a) as [-> | Hne].
  - apply dict_get_set_same.
  - apply dict_get_set_other. congruence.
Qed.

Lemma modules_after_well_formed (reg : list string) (m : Message)
    (d : list (Address * VelbusModule)) :
  well_formed reg d -> well_formed reg (modules_after reg m d).
Proof.
  intros Hwf.
  destruct m as [ | | | | address module_type name | address | command address data ];
    cbn [modules_after]; try exact Hwf.
  destruct (String.eqb name "Unknown") eqn:Hname; [exact Hwf |].
  destruct (str_in name reg) eqn:Hreg; [| exact Hwf].
  intros a module Hin.
  destruct (dict_set_entries d address a _ module Hin) as [Heq | Hold].
  - injection Heq as -> ->. now cbn.
  - now apply Hwf.
Qed.

(** X5: the addresses of the registry stay pairwise distinct over any run
    of calls on the controller. *)
Theorem registry_addresses_unique (reg : list string) (ops : list Op) (w : World) :
  NoDup (map fst (_modules (self w))) ->
  NoDup (map fst (_modules (self (run_ops reg ops w)))).
Proof.
  rewrite run_modules. generalize (_modules (self w)) as d.
  induction (messages_of ops) as [| m ms IH]; intros d Hd; simpl; [exact Hd |].
  apply IH.
  destruct (modules_after_keys reg m d) as (added & -> & Hnodup).
  now apply Hnodup.
Qed.

Lemma registry_addresses_unique_witness :
  NoDup (map fst (_modules (self (run_ops ["VMB4RYLD"%string; "VMB6IN"%string]
    [call_new_message (ModuleTypeMessage 1 8 "VMB4RYLD");
     call_new_message (ModuleTypeMessage 2 5 "VMB6IN");
     call_new_message (ModuleTypeMessage 1 5 "VMB6IN")]
    {| self := init; trace := [] |})))).
Proof.
  apply (registry_addresses_unique ["VMB4RYLD"%string; "VMB6IN"%string]
           [call_new_message (ModuleTypeMessage 1 8 "VMB4RYLD");
            call_new_message (ModuleTypeMessage 2 5 "VMB6IN");
            call_new_message (ModuleTypeMessage 1 5 "VMB6IN")]
           {| self := init; trace := [] |}).
  simpl. constructor.
Defined.

(** X6: no call ever removes or moves an address of the registry: after
    any run, the registered addresses are those from before the run, in the
    same order, followed by the addresses the run added. *)
Theorem registry_never_shrinks (reg : list string) (ops : list Op) (w : World) :
  exists added,
    map fst (_modules (self (run_ops reg ops w)))
    = map fst (_modules (self w)) ++ added.
Proof.
  rewrite run_modules. generalize (_modules (self w)) as d.
  induction (messages_of ops) as [| m ms IH]; intros d; simpl.
  - exists []. now rewrite app_nil_r.
  - destruct (IH (modules_after reg m d)) as (later & ->).
    destruct (modules_after_keys reg m d) as (added & -> & _).
    exists (added ++ later). now rewrite app_assoc.
Qed.

Lemma registry_lookup (reg : list string) (ops : list Op) (w : World) (a : Address) :
  dict_get (_modules (self (run_ops reg ops w))) a
  = last_announced reg a (messages_of ops) (dict_get (_modules (self w)) a).
Proof.
  rewrite run_modules. generalize (_modules (self w)) as d.
  induction (messages_of ops) as [| m ms IH]; intros d; simpl; [reflexivity |].
  now rewrite IH, modules_after_lookup.
Qed.

(** X7: a lookup in the registry after any run gives the module built from
    the last module type response of the run that was for this address and
    had a known type name with a constructor; when the run has no such
    response, the lookup gives what it gave before the run.  Responses of
    unknown or unsupported type, and all calls other than [new_message],
    leave every lookup as it was. *)
Theorem registry_holds_last_announcement (reg : list string) (ops : list Op)
    (w : World) (a : Address) :
  dict_get (_modules (self (run_ops reg ops w))) a
  = last_announced reg a (messages_of ops) (dict_get (_modules (self w)) a).
Proof. apply registry_lookup. Qed.

(** X8: every module of the registry sits at the address it was built
    with and has a type name that is known and has a constructor, and
    this stays so over any run. *)
Theorem registry_stays_well_formed (reg : list string) (ops : list Op) (w : World) :
  well_formed reg (_modules (self w)) ->
  well_formed reg (_modules (self (run_ops reg ops w))).
Proof.
  rewrite run_modules. generalize (_modules (self w)) as d.
  induction (messages_of ops) as [| m ms IH]; intros d Hd; simpl; [exact Hd |].
  now apply IH, modules_after_well_formed.
Qed.

Lemma registry_stays_well_formed_witness :
  well_formed ["VMB4RYLD"%string]
    (_modules (self (run_ops ["VMB4RYLD"%string]
      [call_scan None;
       call_new_message (ModuleTypeMessage 1 8 "VMB4RYLD");
       call_new_message (ModuleTypeMessage 2 5 "VMB6IN");
       call_new_message (ModuleTypeMessage 3 255 "Unknown");
       call_scan_finished]
      {| self := init; trace := [] |}))).
Proof.
  apply (registry_stays_well_formed ["VMB4RYLD"%string]
           [call_scan None;
            call_new_message (ModuleTypeMessage 1 8 "VMB4RYLD");
            call_new_message (ModuleTypeMessage 2 5 "VMB6IN");
            call_new_message (ModuleTypeMessage 3 255 "Unknown");
            call_scan_finished]
           {| self := init; trace := [] |}).
  intros a module [].
Defined.

(** ** Subscriptions and delivery *)

Lemma list_remove_first (x : Subscriber) (l : list Subscriber) :
  In x l ->
  exists a b, l = a ++ x :: b /\ ~ In x a /\ list_remove x l = Some (a ++ b).
Proof.
  induction l as [| y l IH]; simpl; intros Hin; [contradiction |].
  destruct (Nat.eqb_spec y x) as [-> | Hne].
  - exists [], l. repeat split. intros [].
  - destruct Hin as [-> | Hin]; [contradiction |].
    destruct (IH Hin) as (a & b & -> & Hnin & ->).
    exists (y :: a), b. repeat split.
    intros [Hy | Ha]; [contradiction | now apply Hnin].
Qed.

Lemma list_remove_appended (x : Subscriber) (l : list Subscriber) :
  ~ In x l -> list_remove x (l ++ [x]) = Some l.
Proof.
  induction l as [| y l IH]; simpl; intros Hnin.
  - now rewrite Nat.eqb_refl.
  - destruct (Nat.eqb_spec y x) as [-> | Hne]; [exfalso; apply Hnin; now left |].
    rewrite IH; [reflexivity | tauto].
Qed.

(** X9: [unsubscribe] of a subscribed observer succeeds and removes one
    entry, the earliest one of that observer; the entries before and after
    it keep their order, and nothing else in the controller changes. *)
Theorem unsubscribe_removes_earliest_entry (s : Subscriber) (w : World) :
  In s (subscribers (self w)) ->
  exists before after,
    subscribers (self w) = before ++ s :: after /\
    ~ In s before /\
    unsubscribe s w
    = (Ret tt,
       {| self := {| subscribers := before ++ after;
                     scan_callback := scan_callback (self w);
                     _modules := _modules (self w);
                     _modules_loaded := _modules_loaded (self w) |};
          trace := trace w |}).
Proof.
  intros Hin.
  destruct (list_remove_first s _ Hin) as (a & b & Hsplit & Hnin & Hrem).
  exists a, b. repeat split; [exact Hsplit | exact Hnin |].
  unfold unsubscribe, bind, get. now rewrite Hrem.
Qed.

Lemma unsubscribe_removes_earliest_entry_witness :
  exists before after,
    [1%nat; 2%nat; 1%nat] = before ++ 1%nat :: after /\
    ~ In 1%nat before /\
    subscribers (self (snd (unsubscribe 1%nat
      {| self := {| subscribers := [1%nat; 2%nat; 1%nat];
                    scan_callback := None;
                    _modules := [];
                    _modules_loaded := 0 |};
         trace := [] |})))
    = before ++ after.
Proof.
  destruct (unsubscribe_removes_earliest_entry 1%nat
              {| self := {| subscribers := [1%nat; 2%nat; 1%nat];
                            scan_callback := None;
                            _modules := [];
                            _modules_loaded := 0 |};
                 trace := [] |}) as (a & b & Hsplit & Hnin & Heq).
  - simpl. now left.
  - exists a, b. split; [exact Hsplit |]. split; [exact Hnin |].
    now rewrite Heq.
Defined.

(** X10: [subscribe] followed by [unsubscribe] of an observer that had no
    entry brings the controller back to exactly what it was, without a
    trace. *)
Theorem subscribe_unsubscribe_round_trip (s : Subscriber) (w : World) :
  ~ In s (subscribers (self w)) ->
  (subscribe s ;; unsubscribe s) w = (Ret tt, w).
Proof.
  intros Hnin. unfold bind at 1. unfold subscribe at 1. unfold bind, get, put.
  unfold unsubscribe, bind, get.
  cbn [self subscribers scan_callback _modules _modules_loaded trace].
  rewrite (list_remove_appended s _ Hnin). unfold put.
  cbn [self subscribers scan_callback _modules _modules_loaded trace].
  now rewrite controller_eta, world_eta.
Qed.

Lemma subscribe_unsubscribe_round_trip_witness :
  (subscribe 2%nat ;; unsubscribe 2%nat) {| self := one_subscriber; trace := [] |}
  = (Ret tt, {| self := one_subscriber; trace := [] |}).
Proof.
  apply (subscribe_unsubscribe_round_trip 2%nat
           {| self := one_subscriber; trace := [] |}).
  simpl. intros [H | []]. discriminate H.
Defined.



(** ** Name resolution and who reaches whom *)

Lemma name_requests_app (a b : list Event) :
  name_requests (a ++ b) = name_requests a ++ name_requests b.
Proof.
  induction a as [| e a IH]; simpl; [reflexivity |].
  destruct e; simpl; now rewrite ?IH.
Qed.

Lemma name_requests_names (k : Continuation) (d : list (Address * VelbusModule)) :
  name_requests (map (fun kv => GetName (snd kv) k) d) = map snd d.
Proof. induction d as [| kv d IH]; simpl; now rewrite ?IH. Qed.

Lemma name_requests_logs (logs : list Event) :
  forallb is_log logs = true -> name_requests logs = [].
Proof.
  induction logs as [| e logs IH]; simpl; [reflexivity |].
  destruct e; simpl; try discriminate. exact IH.
Qed.

Lemma name_requests_subscribers (m : Message) (l : list Subscriber) :
  name_requests (map (fun s => CallSubscriber s m) l) = [].
Proof. induction l as [| s l IH]; simpl; [reflexivity | exact IH]. Qed.

Lemma name_requests_requests (l : list Z) :
  name_requests (map scan_request l) = [].
Proof. induction l as [| a l IH]; simpl; [reflexivity | exact IH]. Qed.



Lemma bus_requests_names (k : Continuation) (d : list (Address * VelbusModule)) :
  bus_requests (map (fun kv => GetName (snd kv) k) d) = [].
Proof. induction d as [| kv d IH]; simpl; [reflexivity | exact IH]. Qed.

Lemma deliveries_names (k : Continuation) (d : list (Address * VelbusModule)) :
  deliveries (map (fun kv => GetName (snd kv) k) d) = [].
Proof. induction d as [| kv d IH]; simpl; [reflexivity | exact IH]. Qed.

Lemma deliveries_requests (l : list Z) :
  deliveries (map scan_request l) = [].
Proof. induction l as [| a l IH]; simpl; [reflexivity | exact IH]. Qed.

(** X12: [scan_finished] never fails and changes nothing in the
    controller.  It pauses once, for 3 seconds, and then asks every module
    of the registry for its name, once each and in registry order, with
    [module_loaded] as the callback; it puts nothing on the bus itself and
    calls neither a subscriber nor the scan callback. *)
Theorem scan_finished_asks_every_module (w : World) :
  exists new,
    scan_finished w = (Ret tt, {| self := self w; trace := trace w ++ new |}) /\
    new = [Sleep 3; Log INFO (log_text "Scan finished")]
          ++ map (fun kv => GetName (snd kv) module_loaded_k) (_modules (self w)) /\
    name_requests new = map snd (_modules (self w)) /\
    sleeps new = [3] /\
    bus_requests new = [] /\
    deliveries new = [] /\
    callback_calls new = [].
Proof.
  eexists. split.
  - rewrite scan_finished_requests_names, <- app_assoc. reflexivity.
  - split; [reflexivity |]. cbn [app name_requests bus_requests deliveries callback_calls sleeps].
    rewrite name_requests_names, bus_requests_names, deliveries_names, callback_calls_names.
    repeat split.
    induction (_modules (self w)) as [| kv d IH]; simpl; [reflexivity | exact IH].
Qed.


Lemma exec_subscribers_quiet (reg : list string) (o : Op) (w : World) :
  is_new_message o = false ->
  deliveries (trace (snd (exec reg o w))) = deliveries (trace w).
Proof.
  destruct o as [data | s | s | m k | category | callback | | | m];
    cbn [exec is_new_message]; intros Hquiet; try discriminate.
  - destruct data; cbn; rewrite ?deliveries_app; cbn; now rewrite ?app_nil_r.
  - reflexivity.
  - unfold unsubscribe, bind, get.
    now destruct (list_remove s (subscribers (self w))).
  - cbn. rewrite deliveries_app. cbn. now rewrite app_nil_r.
  - unfold bind at 1.
    pose proof (get_modules_pure category w) as Hpure.
    destruct (get_modules category w) as [[r | e] w0]; cbn in Hpure |- *; now subst.
  - destruct (scan_callback (self w)) as [c |] eqn:Hc.
    + now rewrite (scan_active callback w c Hc).
    + rewrite (scan_idle callback w Hc). cbn [snd trace].
      now rewrite deliveries_app, deliveries_requests, app_nil_r.
  - rewrite scan_finished_requests_names. cbn [snd trace].
    rewrite !deliveries_app, deliveries_names. cbn. now rewrite !app_nil_r.
  - now rewrite module_loaded_raises.
Qed.



(** X14: only [new_message] calls subscribers.  A run without it calls no
    subscriber: neither subscribing, nor a scan, nor a send, nor the end of
    a scan notifies anyone. *)
Theorem only_new_message_calls_subscribers (reg : list string) (ops : list Op)
    (w : World) :
  forallb (fun o => negb (is_new_message o)) ops = true ->
  deliveries (trace (run_ops reg ops w)) = deliveries (trace w).
Proof.
  revert w. induction ops as [| o ops IH]; intros w; simpl; [reflexivity |].
  intros Hquiet. apply andb_prop in Hquiet as [Ho Hops].
  rewrite (IH _ Hops). apply exec_subscribers_quiet.
  now destruct (is_new_message o).
Qed.

Lemma only_new_message_calls_subscribers_witness :
  deliveries (trace (run_ops []
    [call_subscribe 2%nat;
     call_scan (Some 7%nat);
     call_send BusActiveMessage None;
     call_scan_finished;
     call_unsubscribe 1%nat]
    {| self := one_subscriber; trace := [] |}))
  = [].
Proof.
  apply (only_new_message_calls_subscribers []
           [call_subscribe 2%nat;
            call_scan (Some 7%nat);
            call_send BusActiveMessage None;
            call_scan_finished;
            call_unsubscribe 1%nat]
           {| self := one_subscriber; trace := [] |}).
  reflexivity.
Defined.

Lemma exec_names_quiet (reg : list string) (o : Op) (w : World) :
  o <> call_scan_finished ->
  name_requests (trace (snd (exec reg o w))) = name_requests (trace w).
Proof.
  destruct o as [data | s | s | m k | category | callback | | | m];
    cbn [exec]; intros Hother; try congruence.
  - destruct data; cbn; rewrite ?name_requests_app; cbn; now rewrite ?app_nil_r.
  - reflexivity.
  - unfold unsubscribe, bind, get.
    now destruct (list_remove s (subscribers (self w))).
  - cbn. rewrite name_requests_app. cbn. now rewrite app_nil_r.
  - unfold bind at 1.
    pose proof (get_modules_pure category w) as Hpure.
    destruct (get_modules category w) as [[r | e] w0]; cbn in Hpure |- *; now subst.
  - destruct (scan_callback (self w)) as [c |] eqn:Hc.
    + now rewrite (scan_active callback w c Hc).
    + rewrite (scan_idle callback w Hc). cbn [snd trace].
      now rewrite name_requests_app, name_requests_requests, app_nil_r.
  - now rewrite module_loaded_raises.
  - destruct (new_message_effect reg m w) as (logs & Hlogs & ->). cbn [snd trace].
    rewrite !name_requests_app, (name_requests_logs logs Hlogs).
    destruct (unknown_module_type m); cbn [app];
      now rewrite ?name_requests_subscribers, app_nil_r.
Qed.

Lemma run_names_quiet (reg : list string) (ops : list Op) (w : World) :
  Forall (fun o => o <> call_scan_finished) ops ->
  name_requests (trace (run_ops reg ops w)) = name_requests (trace w).
Proof.
  intros Hops. revert w.
  induction Hops as [| o ops Ho _ IH]; intros w; simpl; [reflexivity |].
  now rewrite IH, exec_names_quiet.
Qed.

Lemma messages_of_calls (ms : list Message) (rest : list Op) :
  messages_of (map call_new_message ms ++ rest) = ms ++ messages_of rest.
Proof. induction ms as [| m ms IH]; simpl; now rewrite ?IH. Qed.

(** X15: a whole discovery.  A scan is started, any messages arrive, and
    the request for address 255 completes: the modules then asked for
    their names are exactly the modules of the registry, in registry
    order, and the registry holds, for every address, the module last
    announced for it by a response of known, supported type (or what it
    held before the scan when there was none). *)
Theorem discovery_asks_the_registered_modules (reg : list string)
    (callback : option Callback) (ms : list Message) (st : Controller) :
  let w := run_ops reg
             (call_scan callback :: map call_new_message ms ++ [call_scan_finished])
             {| self := st; trace := [] |} in
  name_requests (trace w) = map snd (_modules (self w)) /\
  (forall a, dict_get (_modules (self w)) a
             = last_announced reg a ms (dict_get (_modules st) a)).
Proof.
  intros w. split.
  - subst w.
    change (call_scan callback :: map call_new_message ms ++ [call_scan_finished])
      with ((call_scan callback :: map call_new_message ms) ++ [call_scan_finished]).
    rewrite run_ops_app.
    set (w1 := run_ops reg (call_scan callback :: map call_new_message ms)
                       {| self := st; trace := [] |}).
    cbn [run_ops exec]. rewrite scan_finished_requests_names. cbn [snd self trace].
    rewrite !name_requests_app, name_requests_names. cbn [name_requests app].
    rewrite app_nil_r. subst w1. rewrite run_names_quiet; [reflexivity |].
    constructor; [discriminate |].
    apply Forall_forall. intros o Hin. apply in_map_iff in Hin as (m & <- & _).
    discriminate.
  - intros a. subst w. rewrite registry_lookup. cbn [messages_of self].
    now rewrite messages_of_calls, app_nil_r.
Qed.

(** ** Binary sends *)

(** X16: [send_binary] never changes the controller and never calls a
    subscriber.  It raises [AssertionError] on anything but a [str]; on a
    [str] it hands the parsed message, with the callback it was given, to
    the transport when the parser returns a message, does nothing at all
    when the parser returns something else, and lets an exception of the
    parser through.  It never puts more than one message on the bus. *)
Theorem send_binary_effect (parser_parse : PyValue -> Outcome (option Message))
    (v : PyValue) (callback : option Callback) (w : World) :
  self (snd (send_binary parser_parse v callback w)) = self w /\
  deliveries (trace (snd (send_binary parser_parse v callback w)))
  = deliveries (trace w) /\
  sent (trace (snd (send_binary parser_parse v callback w)))
  = sent (trace w)
    ++ (if isinstance_str v
        then match parser_parse v with
             | Ret (Some m) => [(m, option_map user_k callback)]
             | _ => []
             end
        else []) /\
  fst (send_binary parser_parse v callback w)
  = (if isinstance_str v
     then match parser_parse v with
          | Ret _ => Ret tt
          | Raise e => Raise e
          end
     else Raise AssertionError).
Proof.
  unfold send_binary, bind, lift.
  destruct (isinstance_str v); cbn [raise fst snd].
  - destruct (parser_parse v) as [[m |] | e]; cbn [fst snd send emit ret self trace].
    + rewrite deliveries_app, sent_app. cbn. now rewrite app_nil_r.
    + now rewrite app_nil_r.
    + now rewrite app_nil_r.
  - now rewrite app_nil_r.
Qed.

(** X17: no value is accepted by both entry points for encoded input:
    what [feed_parser] takes ([bytes]) makes [send_binary] raise
    [AssertionError], and what [send_binary] takes ([str]) makes
    [feed_parser] raise it. *)
Theorem feed_parser_and_send_binary_disagree
    (parser_parse : PyValue -> Outcome (option Message))
    (v : PyValue) (callback : option Callback) (w w' : World) :
  (fst (feed_parser v w) = Ret tt ->
   send_binary parser_parse v callback w' = (Raise AssertionError, w')) /\
  (fst (send_binary parser_parse v callback w') = Ret tt ->
   feed_parser v w = (Raise AssertionError, w)).
Proof.
  split.
  - destruct v; cbn; intros H; try discriminate H. reflexivity.
  - unfold send_binary. destruct v; cbn; intros H; try discriminate H. reflexivity.
Qed.

Lemma feed_parser_and_send_binary_disagree_witness :
  send_binary sample_parser (PyBytes [Byte.x0f]) None {| self := init; trace := [] |}
  = (Raise AssertionError, {| self := init; trace := [] |}) /\
  feed_parser (PyStr "bus active") {| self := init; trace := [] |}
  = (Raise AssertionError, {| self := init; trace := [] |}).
Proof.
  split.
  - exact (proj1 (feed_parser_and_send_binary_disagree sample_parser
                    (PyBytes [Byte.x0f]) None
                    {| self := init; trace := [] |} {| self := init; trace := [] |})
                 eq_refl).
  - exact (proj2 (feed_parser_and_send_binary_disagree sample_parser
                    (PyStr "bus active") None
                    {| self := init; trace := [] |} {| self := init; trace := [] |})
                 eq_refl).
Defined.

(** ** A scan over a transport that fails *)

Lemma range_app (lo : Z) (n m : nat) :
  range lo (n + m) = range lo n ++ range (lo + Z.of_nat n) m.
Proof.
  revert lo. induction n as [| n IH]; intros lo.
  - replace (lo + Z.of_nat 0) with lo by lia. reflexivity.
  - replace (lo + Z.of_nat (S n)) with (lo + 1 + Z.of_nat n) by lia.
    cbn [Nat.add range app]. now rewrite IH.
Qed.

Lemma range_seq_zero (n : nat) : range 0 n = map Z.of_nat (seq 0 n).
Proof. rewrite range_seq. apply map_ext. intros i. lia. Qed.

Section FailingTransport.

Variable connection_send : Message -> option Continuation -> Outcome unit.

Lemma send_on_outcome (message : Message) (callback : option Continuation) (w : World) :
  send_on connection_send message callback w
  = (match connection_send message callback with
     | Ret _ => Ret tt
     | Raise e => Raise e
     end,
     {| self := self w; trace := trace w ++ [ConnectionSend message callback] |}).
Proof.
  unfold send_on, bind, emit, lift.
  now destruct (connection_send message callback) as [[] | e].
Qed.

Lemma scan_loop_interrupted (e : PyExn) (done : list Z) (x : Z) (rest : list Z)
    (w : World) :
  (forall a, In a done ->
     connection_send (ModuleTypeRequestMessage a)
                     (if a =? 255 then Some scan_finished_k else None) = Ret tt) ->
  connection_send (ModuleTypeRequestMessage x)
                  (if x =? 255 then Some scan_finished_k else None) = Raise e ->
  for_each (done ++ x :: rest)
    (fun address =>
       let message := ModuleTypeRequestMessage address in
       if address =? 255
       then send_on connection_send message (Some scan_finished_k)
       else send_on connection_send message None) w
  = (Raise e,
     {| self := self w; trace := trace w ++ map scan_request (done ++ [x]) |}).
Proof.
  revert w. induction done as [| a done IH]; intros w Hdone Hx.
  - cbn [app for_each map]. unfold bind.
    assert (Hbody : (if x =? 255
                     then send_on connection_send (ModuleTypeRequestMessage x)
                                  (Some scan_finished_k)
                     else send_on connection_send (ModuleTypeRequestMessage x) None) w
                    = (Raise e, {| self := self w;
                                   trace := trace w ++ [scan_request x] |})).
    { unfold scan_request. destruct (x =? 255); rewrite send_on_outcome; now rewrite Hx. }
    cbv zeta. now rewrite Hbody.
  - cbn [app for_each map]. unfold bind at 1.
    assert (Hbody : (if a =? 255
                     then send_on connection_send (ModuleTypeRequestMessage a)
                                  (Some scan_finished_k)
                     else send_on connection_send (ModuleTypeRequestMessage a) None) w
                    = (Ret tt, {| self := self w;
                                  trace := trace w ++ [scan_request a] |})).
    { pose proof (Hdone a (or_introl eq_refl)) as Ha.
      unfold scan_request. destruct (a =? 255); rewrite send_on_outcome; now rewrite Ha. }
    cbv zeta. rewrite Hbody.
    rewrite IH; [| intros b Hb; apply Hdone; now right | exact Hx].
    cbn [self trace]. now rewrite <- app_assoc.
Qed.

Lemma scan_on_active (callback : option Callback) (w : World) (c : Callback) :
  scan_callback (self w) = Some c ->
  scan_on connection_send callback w
  = (Raise (Exception "Scan already in progress, wait till finished"), w).
Proof.
  intros Hactive. unfold scan_on, bind, get. rewrite Hactive. reflexivity.
Qed.

(** When the connection never raises, the scan over it is the scan of the
    controller above. *)
Lemma scan_on_reliable (callback : option Callback) (w : World) :
  (forall message k, connection_send message k = Ret tt) ->
  scan_on connection_send callback w = scan callback w.
Proof.
  intros Hok. unfold scan_on, scan, bind, get.
  destruct (truthy (scan_callback (self w))); [reflexivity |].
  unfold put. cbn [self trace].
  generalize (range 0 256) as l.
  generalize ({| self := {| subscribers := subscribers (self w);
                            scan_callback := callback;
                            _modules := _modules (self w);
                            _modules_loaded := _modules_loaded (self w) |};
                 trace := trace w |}) as w0.
  intros w0 l. revert w0.
  induction l as [| a l IH]; intros w0; cbn [for_each]; [reflexivity |].
  unfold bind. cbv zeta.
  destruct (a =? 255); rewrite send_on_outcome, Hok; unfold send, emit; apply IH.
Qed.

(** X18: when the connection raises on the request for address [k], having
    accepted the requests before it, [scan] ends with that exception after
    the requests for 0 to [k]; the callback is already stored by then and
    stays stored, so after a scan with a callback that failed half way
    every further scan raises "already in progress". *)
Theorem interrupted_scan_stays_in_progress (callback : option Callback) (w : World)
    (k : Z) (e : PyExn) :
  scan_callback (self w) = None ->
  0 <= k <= 255 ->
  (forall a, 0 <= a < k ->
     connection_send (ModuleTypeRequestMessage a) None = Ret tt) ->
  connection_send (ModuleTypeRequestMessage k)
                  (if k =? 255 then Some scan_finished_k else None) = Raise e ->
  let w' := snd (scan_on connection_send callback w) in
  fst (scan_on connection_send callback w) = Raise e /\
  self w' = with_scan_callback (self w) callback /\
  bus_requests (trace w')
  = bus_requests (trace w)
    ++ map ModuleTypeRequestMessage (map Z.of_nat (seq 0 (Z.to_nat k + 1))) /\
  (forall c later, callback = Some c ->
     scan_on connection_send later w'
     = (Raise (Exception "Scan already in progress, wait till finished"), w')).
Proof.
  intros Hidle Hk Hbefore Hfail w'.
  assert (Hscan : scan_on connection_send callback w
                  = (Raise e,
                     {| self := with_scan_callback (self w) callback;
                        trace := trace w
                                 ++ map scan_request (range 0 (Z.to_nat k) ++ [k]) |})).
  { unfold scan_on, bind, get. rewrite Hidle. cbn [truthy]. unfold put. cbn [self trace].
    replace (range 0 256)
      with (range 0 (Z.to_nat k) ++ k :: range (k + 1) (255 - Z.to_nat k)).
    - rewrite (scan_loop_interrupted e); [reflexivity | | exact Hfail].
      intros a Ha. apply in_range in Ha.
      destruct (Z.eqb_spec a 255); [lia |]. apply Hbefore. lia.
    - replace 256%nat with (Z.to_nat k + S (255 - Z.to_nat k))%nat by lia.
      rewrite range_app. cbn [range]. do 2 f_equal; [lia |]. f_equal. lia. }
  subst w'. rewrite Hscan. cbn [fst snd self trace].
  split; [reflexivity |]. split; [reflexivity |]. split.
  - rewrite bus_requests_app, bus_requests_requests. do 2 f_equal.
    rewrite seq_app, map_app, <- range_seq_zero. cbn [seq map Nat.add]. f_equal.
    f_equal. lia.
  - intros c later ->. now apply scan_on_active with (c := c).
Qed.

End FailingTransport.

Lemma interrupted_scan_stays_in_progress_witness :
  fst (scan_on (fails_at 3 (Exception "write failed")) (Some 7%nat)
               {| self := init; trace := [] |})
  = Raise (Exception "write failed") /\
  bus_requests (trace (snd (scan_on (fails_at 3 (Exception "write failed")) (Some 7%nat)
                                    {| self := init; trace := [] |})))
  = map ModuleTypeRequestMessage [0; 1; 2; 3] /\
  fst (scan_on (fails_at 3 (Exception "write failed")) None
         (snd (scan_on (fails_at 3 (Exception "write failed")) (Some 7%nat)
                       {| self := init; trace := [] |})))
  = Raise (Exception "Scan already in progress, wait till finished").
Proof.
  assert (Hbefore : forall a, 0 <= a < 3 ->
            fails_at 3 (Exception "write failed") (ModuleTypeRequestMessage a) None
            = Ret tt).
  { intros a Ha. unfold fails_at. destruct (Z.eqb_spec a 3); [lia | reflexivity]. }
  destruct (interrupted_scan_stays_in_progress
              (fails_at 3 (Exception "write failed")) (Some 7%nat)
              {| self := init; trace := [] |} 3 (Exception "write failed")
              eq_refl ltac:(lia) Hbefore eq_refl) as (H1 & _ & H2 & H3).
  split; [exact H1 |]. split; [exact H2 |].
  now rewrite (H3 7%nat None eq_refl).
Defined.

(** ** What [new_message] logs *)

Lemma logged_subscribers (lvl : Level) (m : Message) (l : list Subscriber) :
  logged lvl (map (fun s => CallSubscriber s m) l) = [].
Proof. induction l as [| s l IH]; simpl; [reflexivity | exact IH]. Qed.

Ltac logged_after m :=
  try rewrite (for_each_emits (fun s => CallSubscriber s m)) by reflexivity;
  cbn; rewrite ?logged_subscribers; repeat split.

(** X19: what [new_message] reports.  Records at error level are written
    for a bus off and for a receive buffer full message, one each, and for
    no other message.  A warning is written for a module type response
    whose type is unknown (with the type code) or has no constructor (with
    the type name), and for nothing else; a response of a supported type
    is registered without a warning. *)
Theorem new_message_reports (reg : list string) (m : Message) (st : Controller) :
  logged ERROR (trace (snd (run (new_message reg m) st)))
  = match m with
    | BusOffMessage => [log_text "Velbus bus off message received"]
    | ReceiveBufferFullMessage =>
        [log_text "Velbus receive buffer full message received"]
    | _ => []
    end /\
  logged WARNING (trace (snd (run (new_message reg m) st)))
  = match m with
    | ModuleTypeMessage _ module_type name =>
        if String.eqb name "Unknown" then [log_unknown_module module_type]
        else if str_in name reg then []
        else [log_not_supported name]
    | _ => []
    end.
Proof.
  unfold run.
  destruct m as [ | | | | address module_type name | address | command address data ];
    unfold_dispatch.
  - logged_after BusActiveMessage.
  - logged_after ReceiveReadyMessage.
  - logged_after BusOffMessage.
  - logged_after ReceiveBufferFullMessage.
  - destruct (String.eqb name "Unknown"); cbn [self trace].
    + logged_after (ModuleTypeMessage address module_type name).
    + destruct (str_in name reg); cbn [self trace];
        logged_after (ModuleTypeMessage address module_type name).
  - logged_after (ModuleTypeRequestMessage address).
  - logged_after (OtherMessage command address data).
Qed.
